(** * Local/remote reconciliation of the memories and todos collections

    A shallow embedding of the persistence layer of the application
    (the reconciliation module over IndexedDB and the realtime database,
    [utils/firebase.ts], the import handler of [App.tsx] and the
    arithmetic of [components/Timer.tsx]), with the properties of the
    specification proved about it.

    Asynchronous functions are programs of a free monad [Task] over the
    primitive awaited effects (one IndexedDB transaction, one call of the
    hosted SDK, one UI interaction).  [run] executes one program to its
    end on a [World]; [promise_all] interleaves several programs at the
    granularity of these effects. *)

From stdpp Require Import gmap strings list fin_maps.
From Stdlib Require Import ZArith Lia.

Local Open Scope string_scope.
Local Open Scope list_scope.

(** ** Data model ([types.ts]) *)

Inductive MediaType := image | video.

Record Memory := mkMemory {
  mem_id : string;
  mem_type : MediaType;
  mem_url : string;
  mem_caption : option string;
  mem_date : string
}.

Inductive Category := travel | food | activity | life.

Record TodoItem := mkTodo {
  todo_id : string;
  todo_text : string;
  todo_completed : bool;
  todo_notes : option string;
  todo_category : option Category
}.

(** The two object stores keyed by [id] (STORE_MEMORIES, STORE_TODOS). *)
Inductive Coll := Memories | Todos.

Definition Item (c : Coll) : Type :=
  match c with Memories => Memory | Todos => TodoItem end.

Definition item_id {c : Coll} : Item c → string :=
  match c with Memories => mem_id | Todos => todo_id end.

Definition store_name (c : Coll) : string :=
  match c with Memories => "memories" | Todos => "todos" end.

Definition STORE_SETTINGS : string := "settings".

(** Paths of the realtime database used by this code, and the type of the
    value kept under each: a collection is a mapping from item id to item,
    a setting is a string. *)
Inductive Path := PColl (c : Coll) | PSetting (key : string).

Definition PathVal (p : Path) : Type :=
  match p with
  | PColl c => gmap string (Item c)
  | PSetting _ => string
  end.

Definition path_name (p : Path) : string :=
  match p with
  | PColl c => store_name c
  | PSetting key => ("settings/" ++ key)%string
  end.

Definition getSharedPath (path : string) : string := ("shared/" ++ path)%string.

(** JavaScript views of an object used as a map. *)
Definition Object_keys {A} (o : gmap string A) : list string := (map_to_list o).*1.
Definition Object_values {A} (o : gmap string A) : list A := (map_to_list o).*2.

(** [new Map(entries)]: a later entry overrides an earlier one. *)
Definition js_Map {A} (entries : list (string * A)) : gmap string A :=
  foldl (λ acc e, <[e.1 := e.2]> acc) ∅ entries.

(** [url.startsWith('data:')] *)
Definition is_inline (url : string) : bool := String.prefix "data:" url.

(** Truthiness of a string: only the empty string is falsy. *)
Definition truthy (s : string) : bool :=
  match s with EmptyString => false | _ => true end.

(** [{ ...m, url }] *)
Definition with_url (m : Memory) (url : string) : Memory :=
  {| mem_id := mem_id m; mem_type := mem_type m; mem_url := url;
     mem_caption := mem_caption m; mem_date := mem_date m |}.

(** ** Effects *)

Inductive Error := IdbError | SdkError | TypeError | SyntaxError | FormatError.

(** The two messages the import handler shows with [alert]: the restore
    succeeded; the restore failed (wrong format or damaged file). *)
Inductive Message := restore_succeeded | restore_failed.

Definition Result (X : Type) : Type := X + Error.

(** What the outside can observe of a run, in order. *)
Inductive Event :=
| EvIdbPut (store key : string)
| EvIdbDelete (store key : string)
| EvIdbGetAll (store : string)
| EvIdbGet (store key : string)
| EvSdkGet (path : string)
| EvSdkSet (path : string)
| EvSdkRemove (path : string)
| EvSdkOnValue (path : string)
| EvSdkOff (path : string)
| EvUploadString (path : string)
| EvGetDownloadURL (path : string)
| EvOnMemoriesChange (l : list Memory)
| EvOnTodosChange (l : list TodoItem)
| EvConfirm
| EvAlert (msg : Message).

(** Events that are calls of the hosted service. *)
Definition is_remote (e : Event) : bool :=
  match e with
  | EvSdkGet _ | EvSdkSet _ | EvSdkRemove _ | EvSdkOnValue _ | EvSdkOff _
  | EvUploadString _ | EvGetDownloadURL _ => true
  | _ => false
  end.

(** Primitive effects, indexed by the type of their result.  The first two
    read module state of [utils/firebase.ts]; the [Idb] ones are one
    [performTransaction] each; the [Sdk] and storage ones are one call of
    the hosted SDK each. *)
Inductive Op : Type → Type :=
| ReadReady : Op bool
| ReadStorage : Op bool
| IdbPut (c : Coll) (x : Item c) : Op string
| IdbDelete (c : Coll) (key : string) : Op unit
| IdbGetAll (c : Coll) : Op (list (Item c))
| IdbPutSetting (key value : string) : Op string
| IdbGetSetting (key : string) : Op (option string)
| SdkGet (p : Path) : Op (option (PathVal p))
| SdkSet (p : Path) (data : PathVal p) : Op unit
| SdkRemove (p : Path) : Op unit
| SdkOnValue (p : Path) : Op unit
| SdkOff (p : Path) : Op unit
| UploadString (path data : string) : Op unit
| GetDownloadURL (path : string) : Op string
| Notify (c : Coll) (l : list (Item c)) : Op unit
| Confirm : Op bool
| Alert (msg : Message) : Op unit.

(** Asynchronous programs: a result, a thrown exception, or one effect
    followed by the rest of the program, which receives the value of the
    effect or the exception it raised. *)
Inductive Task (A : Type) : Type :=
| Ret (a : A)
| Throw (e : Error)
| Do {X : Type} (op : Op X) (k : Result X → Task A).

Arguments Ret {A} a.
Arguments Throw {A} e.
Arguments Do {A X} op k.

Fixpoint bind {A B} (t : Task A) (f : A → Task B) : Task B :=
  match t with
  | Ret a => f a
  | Throw e => Throw e
  | Do op k => Do op (λ r, bind (k r) f)
  end.

(** [try { t } catch (e) { h e }] *)
Fixpoint try_catch {A} (t : Task A) (h : Error → Task A) : Task A :=
  match t with
  | Ret a => Ret a
  | Throw e => h e
  | Do op k => Do op (λ r, try_catch (k r) h)
  end.

Notation "'let*' x ':=' t 'in' k" := (bind t (λ x, k))
  (at level 10, x name, t at level 200, k at level 200,
   format "'[v' 'let*'  x  :=  t  'in' '/' k ']'").

(** [await op] *)
Definition await {X} (op : Op X) : Task X :=
  Do op (λ r, match r with inl x => Ret x | inr e => Throw e end).

(** A promise that has settled: its value or its rejection. *)
Definition settle {A} (t : Task A) : Task (Result A) :=
  try_catch (let* a := t in Ret (inl a)) (λ e, Ret (inr e)).

Fixpoint all_settled {A} (ts : list (Task A)) : Task (list (Result A)) :=
  match ts with
  | [] => Ret []
  | t :: ts' => let* r := settle t in let* rs := all_settled ts' in Ret (r :: rs)
  end.

Fixpoint collect {A} (rs : list (Result A)) : Result (list A) :=
  match rs with
  | [] => inl []
  | inl a :: rs' => match collect rs' with inl l => inl (a :: l) | inr e => inr e end
  | inr e :: _ => inr e
  end.

(** [await Promise.all(ts)] for promises that are one transaction each: the
    transactions are all carried out, in the order of their creation, and
    the whole rejects if one of them did. *)
Definition Promise_all {A} (ts : list (Task A)) : Task (list A) :=
  let* rs := all_settled ts in
  match collect rs with inl l => Ret l | inr e => Throw e end.

(** ** The world: module state, the two stores, the hosted service *)

Record World := mkWorld {
  isInitialized : bool;
  database : bool;                        (* database !== null *)
  storage : bool;                         (* storage !== null *)
  idb_memories : gmap string Memory;      (* Local Store *)
  idb_todos : gmap string TodoItem;
  idb_settings : gmap string string;
  rt_memories : option (gmap string Memory);   (* value at shared/memories *)
  rt_todos : option (gmap string TodoItem);    (* value at shared/todos *)
  rt_settings : gmap string string;            (* values at shared/settings/<key> *)
  bucket : gmap string string;            (* object storage: path to data *)
  download_url : string → string;         (* the service's URL of a stored path *)
  listening : list string;                (* paths with an active onValue listener *)
  idb_faults : list bool;                 (* which of the coming transactions fail *)
  sdk_faults : list bool;                 (* which of the coming SDK calls throw *)
  confirm_answer : bool;                  (* what the user answers to window.confirm *)
  trace : list Event
}.

Definition set_idb_memories (v : gmap string Memory) (w : World) : World :=
  mkWorld (isInitialized w) (database w) (storage w) v (idb_todos w) (idb_settings w)
    (rt_memories w) (rt_todos w) (rt_settings w) (bucket w) (download_url w)
    (listening w) (idb_faults w) (sdk_faults w) (confirm_answer w) (trace w).

Definition set_idb_todos (v : gmap string TodoItem) (w : World) : World :=
  mkWorld (isInitialized w) (database w) (storage w) (idb_memories w) v (idb_settings w)
    (rt_memories w) (rt_todos w) (rt_settings w) (bucket w) (download_url w)
    (listening w) (idb_faults w) (sdk_faults w) (confirm_answer w) (trace w).

Definition set_idb_settings (v : gmap string string) (w : World) : World :=
  mkWorld (isInitialized w) (database w) (storage w) (idb_memories w) (idb_todos w) v
    (rt_memories w) (rt_todos w) (rt_settings w) (bucket w) (download_url w)
    (listening w) (idb_faults w) (sdk_faults w) (confirm_answer w) (trace w).

Definition set_rt_memories (v : option (gmap string Memory)) (w : World) : World :=
  mkWorld (isInitialized w) (database w) (storage w) (idb_memories w) (idb_todos w)
    (idb_settings w) v (rt_todos w) (rt_settings w) (bucket w) (download_url w)
    (listening w) (idb_faults w) (sdk_faults w) (confirm_answer w) (trace w).

Definition set_rt_todos (v : option (gmap string TodoItem)) (w : World) : World :=
  mkWorld (isInitialized w) (database w) (storage w) (idb_memories w) (idb_todos w)
    (idb_settings w) (rt_memories w) v (rt_settings w) (bucket w) (download_url w)
    (listening w) (idb_faults w) (sdk_faults w) (confirm_answer w) (trace w).

Definition set_rt_settings (v : gmap string string) (w : World) : World :=
  mkWorld (isInitialized w) (database w) (storage w) (idb_memories w) (idb_todos w)
    (idb_settings w) (rt_memories w) (rt_todos w) v (bucket w) (download_url w)
    (listening w) (idb_faults w) (sdk_faults w) (confirm_answer w) (trace w).

Definition set_bucket (v : gmap string string) (w : World) : World :=
  mkWorld (isInitialized w) (database w) (storage w) (idb_memories w) (idb_todos w)
    (idb_settings w) (rt_memories w) (rt_todos w) (rt_settings w) v (download_url w)
    (listening w) (idb_faults w) (sdk_faults w) (confirm_answer w) (trace w).

Definition set_listening (v : list string) (w : World) : World :=
  mkWorld (isInitialized w) (database w) (storage w) (idb_memories w) (idb_todos w)
    (idb_settings w) (rt_memories w) (rt_todos w) (rt_settings w) (bucket w)
    (download_url w) v (idb_faults w) (sdk_faults w) (confirm_answer w) (trace w).

Definition set_idb_faults (v : list bool) (w : World) : World :=
  mkWorld (isInitialized w) (database w) (storage w) (idb_memories w) (idb_todos w)
    (idb_settings w) (rt_memories w) (rt_todos w) (rt_settings w) (bucket w)
    (download_url w) (listening w) v (sdk_faults w) (confirm_answer w) (trace w).

Definition set_sdk_faults (v : list bool) (w : World) : World :=
  mkWorld (isInitialized w) (database w) (storage w) (idb_memories w) (idb_todos w)
    (idb_settings w) (rt_memories w) (rt_todos w) (rt_settings w) (bucket w)
    (download_url w) (listening w) (idb_faults w) v (confirm_answer w) (trace w).

Definition log (e : Event) (w : World) : World :=
  mkWorld (isInitialized w) (database w) (storage w) (idb_memories w) (idb_todos w)
    (idb_settings w) (rt_memories w) (rt_todos w) (rt_settings w) (bucket w)
    (download_url w) (listening w) (idb_faults w) (sdk_faults w) (confirm_answer w)
    (trace w ++ [e]).

(** The object store of a collection. *)
Definition idb (c : Coll) (w : World) : gmap string (Item c) :=
  match c with Memories => idb_memories w | Todos => idb_todos w end.

Definition set_idb (c : Coll) : gmap string (Item c) → World → World :=
  match c with Memories => set_idb_memories | Todos => set_idb_todos end.

(** The value the realtime database holds at a path ([None]: no value,
    the snapshot does not exist). *)
Definition remote (p : Path) (w : World) : option (PathVal p) :=
  match p with
  | PColl Memories => rt_memories w
  | PColl Todos => rt_todos w
  | PSetting key => rt_settings w !! key
  end.

Definition set_remote (p : Path) : option (PathVal p) → World → World :=
  match p with
  | PColl Memories => set_rt_memories
  | PColl Todos => set_rt_todos
  | PSetting key => λ v w,
      set_rt_settings (match v with
                       | Some s => <[key := s]> (rt_settings w)
                       | None => delete key (rt_settings w)
                       end) w
  end.

(** [isFirebaseReady()] *)
Definition ready (w : World) : bool := isInitialized w && database w.

(** One transaction of the Local Store: it is attempted (and seen in the
    trace), and it fails when the fault script says so. *)
Definition idb_call {X} (e : Event) (ok : World → X * World) (w : World)
  : Result X * World :=
  let w1 := log e w in
  match idb_faults w1 with
  | true :: fs => (inr IdbError, set_idb_faults fs w1)
  | false :: fs => let '(x, w2) := ok (set_idb_faults fs w1) in (inl x, w2)
  | [] => let '(x, w2) := ok w1 in (inl x, w2)
  end.

(** One call of the hosted SDK, likewise. *)
Definition sdk_call {X} (e : Event) (ok : World → X * World) (w : World)
  : Result X * World :=
  let w1 := log e w in
  match sdk_faults w1 with
  | true :: fs => (inr SdkError, set_sdk_faults fs w1)
  | false :: fs => let '(x, w2) := ok (set_sdk_faults fs w1) in (inl x, w2)
  | [] => let '(x, w2) := ok w1 in (inl x, w2)
  end.

Definition notify_event (c : Coll) : list (Item c) → Event :=
  match c with Memories => EvOnMemoriesChange | Todos => EvOnTodosChange end.

Definition exec_op {X} (op : Op X) (w : World) : Result X * World :=
  match op in Op X return Result X * World with
  | ReadReady => (inl (ready w), w)
  | ReadStorage => (inl (storage w), w)
  | IdbPut c x =>
      idb_call (EvIdbPut (store_name c) (item_id x))
        (λ w, (item_id x, set_idb c (<[item_id x := x]> (idb c w)) w)) w
  | IdbDelete c key =>
      idb_call (EvIdbDelete (store_name c) key)
        (λ w, (tt, set_idb c (delete key (idb c w)) w)) w
  | IdbGetAll c =>
      idb_call (EvIdbGetAll (store_name c))
        (λ w, (Object_values (idb c w), w)) w
  | IdbPutSetting key value =>
      idb_call (EvIdbPut STORE_SETTINGS key)
        (λ w, (key, set_idb_settings (<[key := value]> (idb_settings w)) w)) w
  | IdbGetSetting key =>
      idb_call (EvIdbGet STORE_SETTINGS key)
        (λ w, (idb_settings w !! key, w)) w
  | SdkGet p =>
      sdk_call (EvSdkGet (getSharedPath (path_name p))) (λ w, (remote p w, w)) w
  | SdkSet p data =>
      sdk_call (EvSdkSet (getSharedPath (path_name p)))
        (λ w, (tt, set_remote p (Some data) w)) w
  | SdkRemove p =>
      sdk_call (EvSdkRemove (getSharedPath (path_name p)))
        (λ w, (tt, set_remote p None w)) w
  | SdkOnValue p =>
      sdk_call (EvSdkOnValue (getSharedPath (path_name p)))
        (λ w, (tt, set_listening (getSharedPath (path_name p) :: listening w) w)) w
  | SdkOff p =>
      sdk_call (EvSdkOff (getSharedPath (path_name p)))
        (λ w, (tt, set_listening
                     (filter (λ q, q ≠ getSharedPath (path_name p)) (listening w)) w)) w
  | UploadString path data =>
      sdk_call (EvUploadString path)
        (λ w, (tt, set_bucket (<[path := data]> (bucket w)) w)) w
  | GetDownloadURL path =>
      sdk_call (EvGetDownloadURL path) (λ w, (download_url w path, w)) w
  | Notify c l => (inl tt, log (notify_event c l) w)
  | Confirm => (inl (confirm_answer w), log EvConfirm w)
  | Alert msg => (inl tt, log (EvAlert msg) w)
  end.

(** Running one program to its end. *)
Fixpoint run {A} (t : Task A) (w : World) : Result A * World :=
  match t with
  | Ret a => (inl a, w)
  | Throw e => (inr e, w)
  | Do op k => let '(r, w') := exec_op op w in run (k r) w'
  end.

(** ** The remote store adapter ([utils/firebase.ts]) *)

Definition isFirebaseReady : Task bool := await ReadReady.

(** What [listen] hands back: a function that does nothing, or one that
    detaches the listener of the path. *)
Inductive Unsub := unsub_noop | unsub_off (p : Path).

Module firebaseSync.

Definition save (p : Path) (data : PathVal p) : Task unit :=
  let* isReady := isFirebaseReady in
  if negb isReady then Ret tt
  else try_catch (await (SdkSet p data)) (λ _, Ret tt).

Definition get (p : Path) : Task (option (PathVal p)) :=
  let* isReady := isFirebaseReady in
  if negb isReady then Ret None
  else try_catch (await (SdkGet p)) (λ _, Ret None).

Definition delete (p : Path) : Task unit :=
  let* isReady := isFirebaseReady in
  if negb isReady then Ret tt
  else try_catch (await (SdkRemove p)) (λ _, Ret tt).

(** The callback given to [listen] is kept by the SDK; what the two
    callbacks of this code do with a snapshot is [memoriesListener] and
    [todosListener] below. *)
Definition listen (p : Path) : Task Unsub :=
  let* isReady := isFirebaseReady in
  if negb isReady then Ret unsub_noop
  else try_catch (let* _ := await (SdkOnValue p) in Ret (unsub_off p))
                 (λ _, Ret unsub_noop).

End firebaseSync.

(** Calling the function [listen] returned. *)
Definition call_unsub (u : Unsub) : Task unit :=
  match u with
  | unsub_noop => Ret tt
  | unsub_off p => await (SdkOff p)
  end.

Module firebaseStorage.

Definition extension (type : MediaType) (base64Data : string) : string :=
  match type with
  | image =>
      if String.prefix "data:image/jpeg" base64Data then "jpg"
      else if String.prefix "data:image/png" base64Data then "png"
      else if String.prefix "data:image/gif" base64Data then "gif"
      else "jpg"
  | video =>
      if String.prefix "data:video/mp4" base64Data then "mp4" else "mp4"
  end.

Definition uploadMedia (base64Data memoryId : string) (type : MediaType)
  : Task (option string) :=
  let* isReady := isFirebaseReady in
  let* hasStorage := await ReadStorage in
  if negb isReady || negb hasStorage then Ret None
  else
    try_catch
      (let fileRef := ("memories/" ++ memoryId ++ "." ++ extension type base64Data)%string in
       let* _ := await (UploadString fileRef base64Data) in
       let* downloadURL := await (GetDownloadURL fileRef) in
       Ret (Some downloadURL))
      (λ _, Ret None).

End firebaseStorage.

(** ** The reconciliation layer *)

(** [fbMemory => ...] of [getAllMemories] and of the memories listener: the
    remote item, with the url of the local item of the same id when that
    one is inline-encoded. *)
Definition enhance (localMap : gmap string Memory) (fbMemory : Memory) : Memory :=
  match localMap !! mem_id fbMemory with
  | Some localMemory =>
      if is_inline (mem_url localMemory)
      then with_url fbMemory (mem_url localMemory)
      else fbMemory
  | None => fbMemory
  end.

(** [data && Object.keys(data).length > 0] *)
Definition has_items {A} (data : option (gmap string A)) : bool :=
  match data with
  | Some o => bool_decide (0 < length (Object_keys o))
  | None => false
  end.

(** [localItems.filter(x => !firebaseIds.has(x.id))] *)
Definition local_only {c : Coll} (firebaseItems localItems : list (Item c))
  : list (Item c) :=
  let firebaseIds : gset string := list_to_set (item_id <$> firebaseItems) in
  filter (λ x, item_id x ∉ firebaseIds) localItems.

Definition put_all (c : Coll) (l : list (Item c)) : Task (list string) :=
  Promise_all ((λ x, await (IdbPut c x)) <$> l).

Definition delete_all (c : Coll) (l : list (Item c)) : Task (list unit) :=
  Promise_all ((λ x, await (IdbDelete c (item_id x))) <$> l).

(** In the functions below the body of a [try] yields [Some v] where the
    source returns [v] from inside it, and [None] where control leaves the
    [try] (or its [catch]) and goes on after it. *)

Definition getAllMemories : Task (list Memory) :=
  let* isReady := isFirebaseReady in
  let* returned :=
    (if isReady then
       try_catch
         (let* firebaseData := firebaseSync.get (PColl Memories) in
          if has_items firebaseData then
            let firebaseMemories : list Memory := Object_values (default ∅ firebaseData) in
            let* localMemories := await (IdbGetAll Memories) in
            let localMap := js_Map ((λ m, (mem_id m, m)) <$> localMemories) in
            let enhancedMemories := enhance localMap <$> firebaseMemories in
            let* _ := put_all Memories enhancedMemories in
            let localOnlyMemories := local_only (c:=Memories) firebaseMemories localMemories in
            let* _ := (if bool_decide (0 < length localOnlyMemories)
                 then delete_all Memories localOnlyMemories
                 else Ret []) in
            Ret (Some enhancedMemories)
          else
            let* localMemories := await (IdbGetAll Memories) in
            let* _ := delete_all Memories localMemories in
            Ret (Some []))
         (λ _, Ret None)
     else Ret None) in
  match returned with
  | Some memories => Ret memories
  | None => await (IdbGetAll Memories)
  end.

Definition saveMemory (memory : Memory) : Task string :=
  let* result := await (IdbPut Memories memory) in
  let* isReady := isFirebaseReady in
  let* _ := (if isReady then
         try_catch
           (let* forFirebase :=
              (if is_inline (mem_url memory) then
                 let* storageUrl := firebaseStorage.uploadMedia
                                (mem_url memory) (mem_id memory) (mem_type memory) in
                 match storageUrl with
                 | Some u => if truthy u then Ret (Some (with_url memory u))
                             else Ret None
                 | None => Ret None
                 end
               else Ret (Some memory)) in
            match forFirebase with
            | None => Ret tt
            | Some memoryForFirebase =>
                let* firebaseData := firebaseSync.get (PColl Memories) in
                let memoriesObj : gmap string Memory := default ∅ firebaseData in
                firebaseSync.save (PColl Memories)
                  (<[mem_id memory := memoryForFirebase]> memoriesObj)
            end)
           (λ _, Ret tt)
       else Ret tt) in
  Ret result.

Definition deleteMemory (id : string) : Task unit :=
  let* _ := await (IdbDelete Memories id) in
  let* isReady := isFirebaseReady in
  if isReady then
    try_catch
      (let* firebaseData := firebaseSync.get (PColl Memories) in
       let memoriesObj : gmap string Memory := default ∅ firebaseData in
       firebaseSync.save (PColl Memories) (delete id memoriesObj))
      (λ _, Ret tt)
  else Ret tt.

Definition getAllTodos : Task (list TodoItem) :=
  let* isReady := isFirebaseReady in
  let* returned :=
    (if isReady then
       try_catch
         (let* firebaseData := firebaseSync.get (PColl Todos) in
          if has_items firebaseData then
            let firebaseTodos : list TodoItem := Object_values (default ∅ firebaseData) in
            let* _ := put_all Todos firebaseTodos in
            let* localTodos := await (IdbGetAll Todos) in
            let localOnlyTodos := local_only (c:=Todos) firebaseTodos localTodos in
            let* _ := (if bool_decide (0 < length localOnlyTodos)
                 then delete_all Todos localOnlyTodos
                 else Ret []) in
            Ret (Some firebaseTodos)
          else
            let* localTodos := await (IdbGetAll Todos) in
            let* _ := delete_all Todos localTodos in
            Ret (Some []))
         (λ _, Ret None)
     else Ret None) in
  match returned with
  | Some todos => Ret todos
  | None => await (IdbGetAll Todos)
  end.

Definition saveTodo (todo : TodoItem) : Task string :=
  let* result := await (IdbPut Todos todo) in
  let* isReady := isFirebaseReady in
  let* _ := (if isReady then
         try_catch
           (let* firebaseData := firebaseSync.get (PColl Todos) in
            let todosObj : gmap string TodoItem := default ∅ firebaseData in
            firebaseSync.save (PColl Todos) (<[todo_id todo := todo]> todosObj))
           (λ _, Ret tt)
       else Ret tt) in
  Ret result.

Definition deleteTodo (id : string) : Task unit :=
  let* _ := await (IdbDelete Todos id) in
  let* isReady := isFirebaseReady in
  if isReady then
    try_catch
      (let* firebaseData := firebaseSync.get (PColl Todos) in
       let todosObj : gmap string TodoItem := default ∅ firebaseData in
       firebaseSync.save (PColl Todos) (delete id todosObj))
      (λ _, Ret tt)
  else Ret tt.

Definition getSetting (key : string) : Task (option (string * string)) :=
  let* isReady := isFirebaseReady in
  let* returned :=
    (if isReady then
       try_catch
         (let* firebaseData := firebaseSync.get (PSetting key) in
          match firebaseData with
          | Some value =>
              let* _ := await (IdbPutSetting key value) in
              Ret (Some (key, value))
          | None => Ret None
          end)
         (λ _, Ret None)
     else Ret None) in
  match returned with
  | Some kv => Ret (Some kv)
  | None => let* v := await (IdbGetSetting key) in Ret ((λ x, (key, x)) <$> v)
  end.

Definition saveSetting (key value : string) : Task string :=
  let* result := await (IdbPutSetting key value) in
  let* isReady := isFirebaseReady in
  let* _ := (if isReady then
         try_catch (firebaseSync.save (PSetting key) value) (λ _, Ret tt)
       else Ret tt) in
  Ret result.

(** *** The live subscription ([setupRealtimeSync])

    The two change callbacks are the application's state setters; their
    invocation is the effect [Notify]. *)

(** What the listener of [memories] does with a snapshot. *)
Definition memoriesListener (data : option (gmap string Memory)) : Task unit :=
  if has_items data then
    let firebaseMemories : list Memory := Object_values (default ∅ data) in
    let* localMemories := await (IdbGetAll Memories) in
    let localMap := js_Map ((λ m, (mem_id m, m)) <$> localMemories) in
    let enhancedMemories := enhance localMap <$> firebaseMemories in
    let toDelete := local_only (c:=Memories) firebaseMemories localMemories in
    let* _ := (if bool_decide (0 < length toDelete)
         then delete_all Memories toDelete
         else Ret []) in
    let* _ := put_all Memories enhancedMemories in
    await (Notify Memories enhancedMemories)
  else
    let* localMemories := await (IdbGetAll Memories) in
    let* _ := delete_all Memories localMemories in
    await (Notify Memories []).

(** What the listener of [todos] does with a snapshot.  The writes to the
    Local Store are started after the callback and are not awaited; their
    failure is only logged. *)
Definition todosListener (data : option (gmap string TodoItem)) : Task unit :=
  match data with
  | Some o =>
      let todos : list TodoItem := Object_values o in
      let* _ := await (Notify Todos todos) in
      try_catch (let* _ := put_all Todos todos in Ret tt) (λ _, Ret tt)
  | None => await (Notify Todos [])
  end.

Definition setupRealtimeSync : Task (list Unsub) :=
  let* isReady := isFirebaseReady in
  if negb isReady then Ret []
  else
    let* unsubMemories := firebaseSync.listen (PColl Memories) in
    let* unsubTodos := firebaseSync.listen (PColl Todos) in
    Ret [unsubMemories; unsubTodos].

(** The cleanup function [setupRealtimeSync] returns. *)
Fixpoint cleanup (unsubscribers : list Unsub) : Task unit :=
  match unsubscribers with
  | [] => Ret tt
  | u :: us => let* _ := call_unsub u in cleanup us
  end.

(** ** Promises that run concurrently

    [Promise.all] over calls of the functions above starts them all; each
    then proceeds from one awaited effect to the next as the transactions
    and the network answer.  The order in which effects of different calls
    take place is the schedule: the index of the call that moves next.
    What the schedule leaves undone is carried out call by call. *)

Definition step {A} (t : Task A) (w : World) : Task A * World :=
  match t with
  | Do op k => let '(r, w') := exec_op op w in (k r, w')
  | _ => (t, w)
  end.

Fixpoint interleave {A} (sched : list nat) (ts : list (Task A)) (w : World)
  : list (Task A) * World :=
  match sched with
  | [] => (ts, w)
  | i :: sched' =>
      match ts !! i with
      | Some t => let '(t', w') := step t w in interleave sched' (<[i := t']> ts) w'
      | None => interleave sched' ts w
      end
  end.

Fixpoint run_each {A} (ts : list (Task A)) (w : World) : list (Result A) * World :=
  match ts with
  | [] => ([], w)
  | t :: ts' =>
      let '(r, w1) := run t w in
      let '(rs, w2) := run_each ts' w1 in
      (r :: rs, w2)
  end.

Definition promise_all {A} (sched : list nat) (ts : list (Task A)) (w : World)
  : Result (list A) * World :=
  let '(ts', w1) := interleave sched ts w in
  let '(rs, w2) := run_each ts' w1 in
  (collect rs, w2).

(** ** Import of a backup ([handleImportData] of [App.tsx]) *)

(** A field of the parsed document: absent; present with a falsy value;
    present with a truthy value that is not an array; an array. *)
Inductive Field (A : Type) := FMissing | FFalsy | FOther | FArray (l : list A).
Arguments FMissing {A}.
Arguments FFalsy {A}.
Arguments FOther {A}.
Arguments FArray {A} l.

Definition has_field {A} (f : Field A) : bool :=
  match f with FMissing => false | _ => true end.

Definition field_truthy {A} (f : Field A) : bool :=
  match f with FOther | FArray _ => true | _ => false end.

Record BackupDoc := mkBackup {
  bk_memories : Field Memory;
  bk_todos : Field TodoItem;
  bk_avatar_jerry : option string;    (* settings?.avatar_jerry, when truthy *)
  bk_avatar_claire : option string
}.

(** The text of the chosen file: not JSON, or a document. *)
Inductive FileText := NotJson | Json (backupData : BackupDoc).

(** Steps of a handler: a function of the world that returns or throws. *)
Definition Act (A : Type) : Type := World → Result A * World.

Definition act_bind {A B} (m : Act A) (f : A → Act B) : Act B :=
  λ w, match m w with
       | (inl a, w') => f a w'
       | (inr e, w') => (inr e, w')
       end.

Notation "'do*' x ':=' m 'in' k" := (act_bind m (λ x, k))
  (at level 10, x name, m at level 200, k at level 200,
   format "'[v' 'do*'  x  :=  m  'in' '/' k ']'").

Definition restore_avatar (key : string) (value : option string) : Act unit :=
  match value with
  | Some v => do* _ := run (saveSetting key v) in λ w, (inl tt, w)
  | None => λ w, (inl tt, w)
  end.

(** The body of the [try] of [handleImportData].  [sched_clear] and
    [sched_write] are the schedules of its two [Promise.all].  The state
    setters of the user interface are left out: they do not touch the
    stores. *)
Definition import_try (text : FileText) (sched_clear sched_write : list nat)
  : Act unit :=
  match text with
  | NotJson => λ w, (inr SyntaxError, w)
  | Json backupData =>
      if negb (field_truthy (bk_memories backupData))
         || negb (field_truthy (bk_todos backupData))
      then λ w, (inr FormatError, w)
      else
        do* confirmed := run (await Confirm) in
        if negb confirmed then λ w, (inl tt, w)
        else
          do* allMemories := run getAllMemories in
          do* allTodos := run getAllTodos in
          do* _ := promise_all sched_clear
                     (((λ m, deleteMemory (mem_id m)) <$> allMemories)
                      ++ ((λ t, deleteTodo (todo_id t)) <$> allTodos)) in
          match bk_memories backupData, bk_todos backupData with
          | FArray memories, FArray todos =>
              do* _ := promise_all sched_write
                         ((saveMemory <$> memories) ++ (saveTodo <$> todos)) in
              do* _ := restore_avatar "avatar_jerry" (bk_avatar_jerry backupData) in
              do* _ := restore_avatar "avatar_claire" (bk_avatar_claire backupData) in
              run (await (Alert restore_succeeded))
          | FArray memories, _ =>
              (* [backupData.todos.map] throws once the saves of the
                 memories have been started *)
              λ w, (inr TypeError, (promise_all sched_write (saveMemory <$> memories) w).2)
          | _, _ => λ w, (inr TypeError, w)
          end
  end.

Definition handleImportData (file : option FileText)
    (sched_clear sched_write : list nat) (w : World) : World :=
  match file with
  | None => w
  | Some text =>
      match import_try text sched_clear sched_write w with
      | (inl _, w') => w'
      | (inr _, w') => (run (await (Alert restore_failed)) w').2
      end
  end.

(** ** The timer ([calculateTime] of [components/Timer.tsx])

    Time values are integers of milliseconds; on them [Math.floor] of a
    quotient is the integer quotient and [%] the remainder. *)

Record TimeLeft := mkTimeLeft { days : Z; hours : Z; minutes : Z; seconds : Z }.

Definition calculateTime (now startDate : Z) : bool * TimeLeft :=
  let diff := (now - startDate)%Z in
  let isDateInFuture := (diff <? 0)%Z in
  let absDiff := Z.abs diff in
  (isDateInFuture,
   {| days := absDiff / (1000 * 60 * 60 * 24);
      hours := (absDiff mod (1000 * 60 * 60 * 24)) / (1000 * 60 * 60);
      minutes := (absDiff mod (1000 * 60 * 60)) / (1000 * 60);
      seconds := (absDiff mod (1000 * 60)) / 1000 |})%Z.

(** ** Specification vocabulary *)

(** No transaction and no call of the service is going to fail. *)
Definition calm (w : World) : Prop := idb_faults w = [] ∧ sdk_faults w = [].

Definition set_trace (v : list Event) (w : World) : World :=
  mkWorld (isInitialized w) (database w) (storage w) (idb_memories w) (idb_todos w)
    (idb_settings w) (rt_memories w) (rt_todos w) (rt_settings w) (bucket w)
    (download_url w) (listening w) (idb_faults w) (sdk_faults w) (confirm_answer w) v.

(** The Local Store after a series of puts, and of deletes. *)
Definition puts {c : Coll} (l : list (Item c)) (s : gmap string (Item c))
  : gmap string (Item c) :=
  foldl (λ s x, <[item_id x := x]> s) s l.

Definition dels {c : Coll} (l : list (Item c)) (s : gmap string (Item c))
  : gmap string (Item c) :=
  foldl (λ s x, delete (item_id x) s) s l.

Definition put_events (c : Coll) (l : list (Item c)) : list Event :=
  (λ x, EvIdbPut (store_name c) (item_id x)) <$> l.

Definition delete_events (c : Coll) (l : list (Item c)) : list Event :=
  (λ x, EvIdbDelete (store_name c) (item_id x)) <$> l.

(** Every item sits under its own id: what [keyPath: 'id'] enforces in the
    Local Store, and what the data model asks of a remote collection. *)
Definition keyed {c : Coll} (m : gmap string (Item c)) : Prop :=
  map_Forall (λ k x, item_id x = k) m.

(** The stores of a world are keyed by item id: the Local Store by
    construction of its object stores, the remote collections by the data
    model. *)
Definition well_keyed (w : World) : Prop :=
  keyed (c:=Memories) (idb_memories w) ∧ keyed (c:=Todos) (idb_todos w) ∧
  keyed (c:=Memories) (default ∅ (rt_memories w)) ∧
  keyed (c:=Todos) (default ∅ (rt_todos w)).

(** The remote store is reachable: the adapter is ready and no call of the
    service or transaction of the Local Store is going to fail. *)
Definition reachable (w : World) : Prop := ready w = true ∧ calm w.

(** What a remote collection is when it has no item: no value at its path,
    or an object without keys. *)
Definition remote_empty {A} (data : option (gmap string A)) : Prop :=
  data = None ∨ data = Some ∅.

(** *** Sample data *)

Module Samples.

Definition photo_a : Memory :=
  mkMemory "a" image "https://cdn.example/a.jpg" (Some "first") "2025-10-25T08:00:00.000Z".

Definition photo_b_local : Memory :=
  mkMemory "b" image "data:image/png;base64,iVBORw0KGgo=" (Some "old") "2025-10-26T08:00:00.000Z".

Definition photo_b_remote : Memory :=
  mkMemory "b" image "https://cdn.example/b.png" (Some "new") "2025-10-27T08:00:00.000Z".

Definition todo_1 : TodoItem := mkTodo "1" "see the sea" false (Some "") (Some travel).
Definition todo_1_done : TodoItem := mkTodo "1" "see the sea" true (Some "") (Some travel).
Definition todo_2 : TodoItem := mkTodo "2" "bake bread" false None None.

Definition local_memories : gmap string Memory := {[ "a" := photo_a; "b" := photo_b_local ]}.
Definition remote_memories : gmap string Memory := {[ "a" := photo_a; "b" := photo_b_remote ]}.
Definition local_todos : gmap string TodoItem := {[ "1" := todo_1; "2" := todo_2 ]}.
Definition remote_todos : gmap string TodoItem := {[ "1" := todo_1_done ]}.

Definition service_url (path : string) : string :=
  ("https://storage.example/" ++ path)%string.

(** A session with the remote store ready and both sides populated. *)
Definition online : World :=
  mkWorld true true true local_memories local_todos ∅
    (Some remote_memories) (Some remote_todos) ∅ ∅ service_url [] [] [] true [].


(** Ready, with nothing in the remote collections. *)
Definition online_remote_empty : World :=
  mkWorld true true true local_memories local_todos ∅
    None (Some ∅) ∅ ∅ service_url [] [] [] true [].

(** A backup of two memories and one todo. *)
Definition photo_c : Memory :=
  mkMemory "c" video "https://cdn.example/c.mp4" None "2025-11-01T08:00:00.000Z".

Definition photo_d : Memory :=
  mkMemory "d" image "https://cdn.example/d.jpg" None "2025-11-02T08:00:00.000Z".

Definition todo_3 : TodoItem := mkTodo "3" "plant a tree" false None (Some life).

Definition backup : BackupDoc :=
  mkBackup (FArray [photo_c; photo_d]) (FArray [todo_3]) None None.

(** Two concurrent calls that take turns, effect by effect: both have
    read the remote collection before either writes it back. *)
Definition taking_turns : list nat := [0; 1; 0; 1; 0; 1; 0; 1; 0; 1; 0; 1].

End Samples.

(** The three operations of the reconciliation layer, by collection. *)
Definition Read_all (c : Coll) : Task (list (Item c)) :=
  match c with Memories => getAllMemories | Todos => getAllTodos end.

Definition Save (c : Coll) : Item c → Task string :=
  match c with Memories => saveMemory | Todos => saveTodo end.


(** A memory whose content goes through the blob upload before the remote
    write. *)
Definition needs_upload {c : Coll} : Item c → bool :=
  match c with
  | Memories => λ m, is_inline (mem_url m)
  | Todos => λ _, false
  end.


(** The state of the collections: the Local Store, the remote database and
    the object storage. *)
Definition stores (w : World) :=
  (idb_memories w, idb_todos w, idb_settings w,
   rt_memories w, rt_todos w, rt_settings w, bucket w).

(** * Properties *)

(** ** Proof automation *)

(** Unfolding of programs on a world given by its fields. *)
Ltac exec1 :=
  cbn [run bind try_catch await exec_op notify_event
       set_idb set_remote remote idb
       isInitialized database storage idb_memories idb_todos idb_settings
       rt_memories rt_todos rt_settings bucket download_url listening
       idb_faults sdk_faults confirm_answer trace
       isFirebaseReady firebaseSync.get firebaseSync.save firebaseSync.delete
       firebaseSync.listen firebaseStorage.uploadMedia call_unsub
       negb andb orb fst snd item_id store_name path_name Item PathVal].

Ltac exec :=
  repeat progress
    (exec1;
     unfold ready, log, idb_call, sdk_call,
       set_idb_memories, set_idb_todos, set_idb_settings,
       set_rt_memories, set_rt_todos, set_rt_settings, set_bucket,
       set_listening, set_idb_faults, set_sdk_faults, set_trace).

(** A concrete store is keyed. *)
Ltac keyed_by_computation :=
  apply map_Forall_to_list; vm_compute; repeat constructor.

(** Plain evaluation of a program, for runs that reach a value. *)
Ltac fast_exec :=
  cbv beta iota zeta delta
      [run bind try_catch await exec_op notify_event
       set_idb set_remote remote idb
       isInitialized database storage idb_memories idb_todos idb_settings
       rt_memories rt_todos rt_settings bucket download_url listening
       idb_faults sdk_faults confirm_answer trace
       isFirebaseReady firebaseSync.get firebaseSync.save firebaseSync.delete
       firebaseSync.listen firebaseStorage.uploadMedia call_unsub
       negb andb orb fst snd item_id store_name path_name Item PathVal
       ready log idb_call sdk_call
       set_idb_memories set_idb_todos set_idb_settings
       set_rt_memories set_rt_todos set_rt_settings set_bucket
       set_listening set_idb_faults set_sdk_faults set_trace].

(** Case analysis on what the fault scripts and the conditions of a
    program leave undecided. *)
Ltac crunch :=
  repeat (fast_exec;
          match goal with
          | |- context [match ?l with [] => _ | _ :: _ => _ end] =>
              is_var l; destruct l as [| [] ?]
          | |- context [if ?b then _ else _] => destruct b eqn:?
          | |- context [match ?s with EmptyString => _ | String _ _ => _ end] =>
              destruct s eqn:?
          end);
  fast_exec.

(** The run of a program, named, so that it is evaluated once. *)
Ltac name_run prog :=
  let R := fresh "R" in
  let HR := fresh "HR" in
  remember (run prog _) as R eqn:HR; symmetry in HR; revert HR.

(** Conditions decided while the run was evaluated. *)
Ltac recall_conditions :=
  repeat match goal with
    | H : ?b = _ |- context [if ?b then _ else _] => rewrite H
    end.

(** Two spellings of one trace. *)
Ltac trace_eq := rewrite <- ?app_assoc; reflexivity.

(** The same, using first what earlier cases have settled. *)
Ltac crunch_recalling :=
  repeat (fast_exec;
          match goal with
          | H : ?b = _ |- context [if ?b then _ else _] => rewrite H
          | |- context [match ?l with [] => _ | _ :: _ => _ end] =>
              is_var l; destruct l as [| [] ?]
          | |- context [if ?b then _ else _] => destruct b eqn:?
          end);
  fast_exec.

(** ** Running composed programs *)

Lemma run_bind {A B} (t : Task A) (f : A → Task B) (w : World) :
  run (bind t f) w =
  match run t w with
  | (inl a, w') => run (f a) w'
  | (inr e, w') => (inr e, w')
  end.
Proof.
  revert w. induction t as [a | e | X op k IH]; intros w; simpl; [done | done |].
  destruct (exec_op op w) as [r w']. apply IH.
Qed.

Lemma run_try_catch {A} (t : Task A) (h : Error → Task A) (w : World) :
  run (try_catch t h) w =
  match run t w with
  | (inl a, w') => (inl a, w')
  | (inr e, w') => run (h e) w'
  end.
Proof.
  revert w. induction t as [a | e | X op k IH]; intros w; simpl; [done | done |].
  destruct (exec_op op w) as [r w']. apply IH.
Qed.

Lemma run_await {X} (op : Op X) (w : World) : run (await op) w = exec_op op w.
Proof. unfold await. simpl. by destruct (exec_op op w) as [[x | e] w']. Qed.

Lemma run_settle {A} (t : Task A) (w : World) :
  run (settle t) w = (inl (run t w).1, (run t w).2).
Proof.
  unfold settle. rewrite run_try_catch, run_bind.
  by destruct (run t w) as [[a | e] w'].
Qed.

Lemma run_all_settled {A} (ts : list (Task A)) (w : World) :
  run (all_settled ts) w = (inl (run_each ts w).1, (run_each ts w).2).
Proof.
  revert w. induction ts as [| t ts IH]; intros w; [done |].
  cbn [all_settled run_each]. rewrite run_bind, run_settle, run_bind, IH.
  destruct (run t w) as [r w1]. cbn [fst snd]. by destruct (run_each ts w1) as [rs w2].
Qed.

(** Awaiting promises of one transaction each is the interleaving that
    has nothing to interleave. *)
Lemma run_Promise_all {A} (ts : list (Task A)) (w : World) :
  run (Promise_all ts) w = promise_all [] ts w.
Proof.
  unfold Promise_all, promise_all. rewrite run_bind, run_all_settled.
  cbn [interleave]. destruct (run_each ts w) as [rs w2]. cbn [fst snd].
  by destruct (collect rs).
Qed.

(** ** Worlds without pending faults *)

Lemma run_each_puts (c : Coll) (l : list (Item c)) (w : World) :
  idb_faults w = [] →
  run_each ((λ x, await (IdbPut c x)) <$> l) w =
  (inl <$> (item_id <$> l),
   set_trace (trace w ++ put_events c l) (set_idb c (puts l (idb c w)) w)).
Proof.
  revert w. induction l as [| x l IH]; intros w Hf.
  - destruct w, c; simpl in *; by rewrite app_nil_r.
  - cbn [fmap list_fmap run_each]. rewrite run_await.
    cbn [exec_op]. unfold idb_call.
    replace (idb_faults (log (EvIdbPut (store_name c) (item_id x)) w))
      with (@nil bool) by (by destruct w).
    rewrite IH by (by destruct w, c).
    destruct w, c; simpl in *; by rewrite <- app_assoc.
Qed.

Lemma run_each_dels (c : Coll) (l : list (Item c)) (w : World) :
  idb_faults w = [] →
  run_each ((λ x, await (IdbDelete c (item_id x))) <$> l) w =
  (inl <$> ((λ _, tt) <$> l),
   set_trace (trace w ++ delete_events c l) (set_idb c (dels l (idb c w)) w)).
Proof.
  revert w. induction l as [| x l IH]; intros w Hf.
  - destruct w, c; simpl in *; by rewrite app_nil_r.
  - cbn [fmap list_fmap run_each]. rewrite run_await.
    cbn [exec_op]. unfold idb_call.
    replace (idb_faults (log (EvIdbDelete (store_name c) (item_id x)) w))
      with (@nil bool) by (by destruct w).
    rewrite IH by (by destruct w, c).
    destruct w, c; simpl in *; by rewrite <- app_assoc.
Qed.

Lemma collect_inl {A} (l : list A) : collect (inl <$> l) = inl l.
Proof.
  induction l as [| a l IH]; [done |].
  rewrite fmap_cons. cbn [collect]. by rewrite IH.
Qed.

Lemma run_put_all (c : Coll) (l : list (Item c)) (w : World) :
  idb_faults w = [] →
  run (put_all c l) w =
  (inl (item_id <$> l),
   set_trace (trace w ++ put_events c l) (set_idb c (puts l (idb c w)) w)).
Proof.
  intros Hf. unfold put_all. rewrite run_Promise_all. unfold promise_all.
  cbn [interleave]. rewrite run_each_puts by done. cbv beta iota.
  by rewrite collect_inl.
Qed.

Lemma run_delete_all (c : Coll) (l : list (Item c)) (w : World) :
  idb_faults w = [] →
  run (delete_all c l) w =
  (inl ((λ _, tt) <$> l),
   set_trace (trace w ++ delete_events c l) (set_idb c (dels l (idb c w)) w)).
Proof.
  intros Hf. unfold delete_all. rewrite run_Promise_all. unfold promise_all.
  cbn [interleave]. rewrite run_each_dels by done. cbv beta iota.
  by rewrite collect_inl.
Qed.

(** ** Stores keyed by the id of their items *)

Lemma has_items_true {A} (o : gmap string A) :
  has_items (Some o) = true ↔ o ≠ ∅.
Proof.
  unfold has_items, Object_keys. rewrite bool_decide_eq_true, length_fmap.
  rewrite <- (map_to_list_empty_iff o).
  destruct (map_to_list o); simpl; split; intros; try done; lia.
Qed.

Lemma has_items_false {A} (data : option (gmap string A)) :
  has_items data = false ↔ data = None ∨ data = Some ∅.
Proof.
  destruct data as [o |]; [| by split; [left | ]].
  split.
  - intros H. right. f_equal. destruct (decide (o = ∅)) as [| Hne]; [done |].
    apply has_items_true in Hne. congruence.
  - intros [| [= ->]]; [done |]. apply not_true_is_false.
    rewrite has_items_true. by intros [].
Qed.

Lemma elem_of_Object_values {A} (o : gmap string A) (x : A) :
  x ∈ Object_values o ↔ ∃ k, o !! k = Some x.
Proof.
  unfold Object_values. rewrite list_elem_of_fmap. split.
  - intros [[k y] [-> H]]. exists k. by apply elem_of_map_to_list.
  - intros [k H]. exists (k, x). split; [done |]. by apply elem_of_map_to_list.
Qed.

Lemma keyed_lookup {c : Coll} (m : gmap string (Item c)) k x :
  keyed m → m !! k = Some x → item_id x = k.
Proof. intros Hk H. exact (Hk k x H). Qed.

Lemma keyed_ids {c : Coll} (m : gmap string (Item c)) :
  keyed m → item_id <$> Object_values m = Object_keys m.
Proof.
  intros Hk. unfold Object_values, Object_keys.
  assert (Forall (λ p : string * Item c, item_id p.2 = p.1) (map_to_list m)) as HF.
  { apply Forall_forall. intros [k x] H. apply elem_of_map_to_list in H.
    exact (Hk k x H). }
  revert HF. generalize (map_to_list m). intros l HF.
  induction HF as [| [k x] l Hx _ IH]; [done |].
  rewrite !fmap_cons. simpl in *. rewrite Hx. f_equal. exact IH.
Qed.

Lemma keyed_empty {c : Coll} : keyed (c:=c) ∅.
Proof. apply map_Forall_empty. Qed.

Lemma keyed_insert {c : Coll} (m : gmap string (Item c)) (x : Item c) :
  keyed m → keyed (<[item_id x := x]> m).
Proof. intros Hk. by apply map_Forall_insert_2. Qed.


Lemma elem_of_ids_keyed {c : Coll} (m : gmap string (Item c)) k :
  keyed m → k ∈ item_id <$> Object_values m ↔ is_Some (m !! k).
Proof.
  intros Hk. rewrite keyed_ids by done. unfold Object_keys.
  rewrite list_elem_of_fmap. split.
  - intros [[k' x] [-> H]]. apply elem_of_map_to_list in H. by exists x.
  - intros [x H]. exists (k, x). split; [done |]. by apply elem_of_map_to_list.
Qed.

(** *** Series of puts and of deletes *)

Lemma lookup_puts_notin {c : Coll} (l : list (Item c)) s k :
  k ∉ item_id <$> l → puts l s !! k = s !! k.
Proof.
  revert s. induction l as [| x l IH]; intros s Hk; [done |].
  cbn [puts foldl]. fold (puts l (<[item_id x := x]> s)).
  rewrite fmap_cons, not_elem_of_cons in Hk. destruct Hk as [Hne Hk].
  rewrite IH by done. by rewrite lookup_insert_ne.
Qed.

Lemma lookup_puts_in {c : Coll} (l : list (Item c)) s x :
  NoDup (item_id <$> l) → x ∈ l → puts l s !! item_id x = Some x.
Proof.
  revert s. induction l as [| y l IH]; intros s Hnd Hx; [by apply elem_of_nil in Hx |].
  cbn [puts foldl]. fold (puts l (<[item_id y := y]> s)).
  rewrite fmap_cons in Hnd. apply NoDup_cons in Hnd as [Hy Hnd].
  apply elem_of_cons in Hx as [-> | Hx].
  - rewrite lookup_puts_notin by done. apply lookup_insert_eq.
  - by apply IH.
Qed.

Lemma NoDup_ids_keyed {c : Coll} (m : gmap string (Item c)) :
  keyed m → NoDup (item_id <$> Object_values m).
Proof. intros Hk. rewrite keyed_ids by done. apply NoDup_fst_map_to_list. Qed.

(** Writing a keyed collection over a store: its items win, the others
    stay. *)
Lemma puts_values_keyed {c : Coll} (m s : gmap string (Item c)) :
  keyed m → puts (Object_values m) s = m ∪ s.
Proof.
  intros Hk. apply map_eq. intros k. rewrite lookup_union.
  destruct (m !! k) as [x |] eqn:Hm.
  - rewrite <- (keyed_lookup m k x Hk Hm).
    rewrite lookup_puts_in; [by destruct (s !! item_id x) | by apply NoDup_ids_keyed |].
    apply elem_of_Object_values. by exists k.
  - rewrite lookup_puts_notin; [by destruct (s !! k) |].
    rewrite elem_of_ids_keyed by done. rewrite Hm. by intros [? ?].
Qed.

Lemma lookup_dels {c : Coll} (l : list (Item c)) s k :
  dels l s !! k = if decide (k ∈ item_id <$> l) then None else s !! k.
Proof.
  revert s. induction l as [| x l IH]; intros s.
  - cbn. by rewrite decide_False by apply not_elem_of_nil.
  - cbn [dels foldl]. fold (dels l (delete (item_id x) s)). rewrite IH.
    rewrite fmap_cons. destruct (decide (k ∈ item_id <$> l)) as [Hin | Hnin].
    + rewrite decide_True; [done | rewrite elem_of_cons; tauto].
    + destruct (decide (k = item_id x)) as [-> | Hne].
      * rewrite decide_True by (rewrite elem_of_cons; tauto). apply lookup_delete_eq.
      * rewrite decide_False by (rewrite elem_of_cons; tauto).
        by rewrite lookup_delete_ne.
Qed.

(** Deleting every item a keyed store lists empties it. *)
Lemma dels_values_keyed {c : Coll} (s : gmap string (Item c)) :
  keyed s → dels (Object_values s) s = ∅.
Proof.
  intros Hk. apply map_eq. intros k. rewrite lookup_dels, lookup_empty.
  case_decide as Hin; [done |].
  rewrite elem_of_ids_keyed in Hin by done.
  destruct (s !! k) eqn:E; [| done]. exfalso. apply Hin. by eexists.
Qed.

(** [new Map] of the items of a keyed store is the store. *)
Lemma js_Map_keyed {c : Coll} (s : gmap string (Item c)) :
  keyed s → js_Map ((λ x, (item_id x, x)) <$> Object_values s) = s.
Proof.
  intros Hk. unfold js_Map.
  transitivity (puts (Object_values s) ∅).
  - unfold puts. generalize (∅ : gmap string (Item c)).
    induction (Object_values s) as [| x l IH]; intros acc; [done |]. apply IH.
  - rewrite puts_values_keyed by done. apply (right_id_L ∅ (∪)).
Qed.
(** ** Read-all on a world without pending faults *)


Lemma getAllMemories_items (w : World) :
  calm w → ready w = true → has_items (rt_memories w) = true →
  let firebaseMemories := Object_values (default ∅ (rt_memories w)) in
  let localMemories := Object_values (idb_memories w) in
  let enhanced : list Memory :=
    enhance (js_Map ((λ m, (mem_id m, m)) <$> localMemories)) <$> firebaseMemories in
  let localOnly := local_only (c:=Memories) firebaseMemories localMemories in
  run getAllMemories w =
  (inl enhanced,
   set_trace (trace w ++ [EvSdkGet "shared/memories"; EvIdbGetAll "memories"]
                ++ put_events Memories enhanced ++ delete_events Memories localOnly)
     (set_idb_memories (dels (c:=Memories) localOnly
                          (puts (c:=Memories) enhanced (idb_memories w))) w)).
Proof.
  destruct w as [[] [] ?]; unfold calm, getAllMemories; exec;
    intros [-> ->] Hr Hi; try discriminate. exec.
  rewrite Hi. rewrite run_bind. exec.
  rewrite run_try_catch, run_bind, run_put_all by reflexivity. exec.
  rewrite run_bind.
  destruct (local_only _ _) as [| x lo] eqn:Hlo.
  - rewrite bool_decide_eq_false_2 by (simpl; lia). exec.
    unfold delete_events, dels. simpl. by rewrite ?app_nil_r, <- ?app_assoc.
  - rewrite bool_decide_eq_true_2 by (simpl; lia).
    rewrite run_delete_all by reflexivity. exec.
    by rewrite <- !app_assoc.
Qed.

Lemma getAllMemories_empty (w : World) :
  calm w → ready w = true → has_items (rt_memories w) = false →
  let localMemories := Object_values (idb_memories w) in
  run getAllMemories w =
  (inl [],
   set_trace (trace w ++ [EvSdkGet "shared/memories"; EvIdbGetAll "memories"]
                ++ delete_events Memories localMemories)
     (set_idb_memories (dels (c:=Memories) localMemories (idb_memories w)) w)).
Proof.
  destruct w as [[] [] ?]; unfold calm, getAllMemories; exec;
    intros [-> ->] Hr Hi; try discriminate. exec.
  rewrite Hi. rewrite run_bind. exec.
  rewrite run_try_catch, run_bind, run_delete_all by reflexivity. exec.
  by rewrite <- !app_assoc.
Qed.


Lemma getAllTodos_items (w : World) :
  calm w → ready w = true → has_items (rt_todos w) = true →
  let firebaseTodos := Object_values (default ∅ (rt_todos w)) in
  let written := puts (c:=Todos) firebaseTodos (idb_todos w) in
  let localOnly := local_only (c:=Todos) firebaseTodos (Object_values written) in
  run getAllTodos w =
  (inl firebaseTodos,
   set_trace (trace w ++ [EvSdkGet "shared/todos"] ++ put_events Todos firebaseTodos
                ++ [EvIdbGetAll "todos"] ++ delete_events Todos localOnly)
     (set_idb_todos (dels (c:=Todos) localOnly written) w)).
Proof.
  destruct w as [[] [] ?]; unfold calm, getAllTodos; exec;
    intros [-> ->] Hr Hi; try discriminate. exec.
  rewrite Hi. rewrite run_bind, run_try_catch, run_bind, run_put_all by reflexivity.
  exec. rewrite run_bind.
  destruct (local_only _ _) as [| x lo] eqn:Hlo.
  - rewrite bool_decide_eq_false_2 by (simpl; lia). exec.
    unfold delete_events, dels. simpl. by rewrite ?app_nil_r, <- !app_assoc.
  - rewrite bool_decide_eq_true_2 by (simpl; lia).
    rewrite run_delete_all by reflexivity. exec.
    by rewrite <- !app_assoc.
Qed.

Lemma getAllTodos_empty (w : World) :
  calm w → ready w = true → has_items (rt_todos w) = false →
  let localTodos := Object_values (idb_todos w) in
  run getAllTodos w =
  (inl [],
   set_trace (trace w ++ [EvSdkGet "shared/todos"; EvIdbGetAll "todos"]
                ++ delete_events Todos localTodos)
     (set_idb_todos (dels (c:=Todos) localTodos (idb_todos w)) w)).
Proof.
  destruct w as [[] [] ?]; unfold calm, getAllTodos; exec;
    intros [-> ->] Hr Hi; try discriminate. exec.
  rewrite Hi. rewrite run_bind. exec.
  rewrite run_try_catch, run_bind, run_delete_all by reflexivity. exec.
  by rewrite <- !app_assoc.
Qed.
(** ** Read-all with the remote store reachable *)

Lemma enhance_inline (localMap : gmap string Memory) (fb loc : Memory) :
  localMap !! mem_id fb = Some loc → is_inline (mem_url loc) = true →
  enhance localMap fb = with_url fb (mem_url loc).
Proof. intros H1 H2. unfold enhance. by rewrite H1, H2. Qed.


(** After Read-all of the todos the Local Store holds the remote
    collection and nothing else. *)
Lemma todos_replaced (rt s : gmap string TodoItem) :
  keyed (c:=Todos) rt → keyed (c:=Todos) s →
  let written := puts (c:=Todos) (Object_values rt) s in
  dels (c:=Todos) (local_only (c:=Todos) (Object_values rt) (Object_values written))
    written = rt.
Proof.
  intros Hrt Hs written. subst written. rewrite (puts_values_keyed (c:=Todos)) by done.
  assert (keyed (c:=Todos) (rt ∪ s)) as Hu.
  { intros k x Hx. apply lookup_union_Some_raw in Hx as [Hx | [_ Hx]];
      [exact (Hrt k x Hx) | exact (Hs k x Hx)]. }
  apply map_eq. intros k. rewrite (lookup_dels (c:=Todos)).
  assert (k ∈ item_id <$> local_only (c:=Todos) (Object_values rt) (Object_values (rt ∪ s))
          ↔ rt !! k = None ∧ is_Some (s !! k)) as Hin.
  { unfold local_only. rewrite list_elem_of_fmap. split.
    - intros [x [-> Hx]]. apply list_elem_of_filter in Hx as [Hnot Hx].
      rewrite elem_of_list_to_set, (elem_of_ids_keyed (c:=Todos)) in Hnot by done.
      apply elem_of_Object_values in Hx as [k Hx].
      pose proof (Hu k x Hx) as Hid. cbn beta in Hid. rewrite Hid in *.
      apply eq_None_not_Some in Hnot.
      apply lookup_union_Some_raw in Hx as [Hx | [_ Hx]]; [congruence |].
      split; [done | by eexists].
    - intros [Hn [x Hx]]. exists x. pose proof (keyed_lookup (c:=Todos) s k x Hs Hx) as Hid.
      split; [done |].
      apply list_elem_of_filter. split.
      + rewrite elem_of_list_to_set, (elem_of_ids_keyed (c:=Todos)) by done.
        intros [y Hy]. cbn in Hid, Hy. congruence.
      + apply elem_of_Object_values. exists k.
        apply lookup_union_Some_raw. right. done. }
  case_decide as Hd; cbn [Item] in *.
  - apply Hin in Hd as [Hn _]. by rewrite Hn.
  - rewrite lookup_union. destruct (rt !! k) as [x |] eqn:E.
    + by destruct (s !! k).
    + destruct (s !! k) as [y |] eqn:E'; [| done].
      exfalso. apply Hd, Hin. split; [done | by eexists].
Qed.

(** C1. Read-all on a reachable, non-empty remote collection.  Memories:
    the list returned is the list of the remote items, each taken through
    [enhance]; where the Local Store has an item of the same id whose url is
    inline-encoded, the item returned has that local url and the caption,
    date, id and type of the remote item.  Todos: the list returned is the
    list of the remote items as they are, and afterwards the Local Store
    holds exactly the remote collection. *)
Theorem C1_read_all_merges_memories_replaces_todos
    (w : World) (rm : gmap string Memory) (rt : gmap string TodoItem) :
  reachable w → well_keyed w →
  rt_memories w = Some rm → rm ≠ ∅ →
  rt_todos w = Some rt → rt ≠ ∅ →
  (run getAllMemories w).1 = inl (enhance (idb_memories w) <$> Object_values rm)
  ∧ (∀ fb loc : Memory,
       fb ∈ Object_values rm →
       idb_memories w !! mem_id fb = Some loc →
       is_inline (mem_url loc) = true →
       let returned := enhance (idb_memories w) fb in
       mem_url returned = mem_url loc ∧
       mem_caption returned = mem_caption fb ∧
       mem_date returned = mem_date fb ∧
       mem_id returned = mem_id fb ∧
       mem_type returned = mem_type fb)
  ∧ (run getAllTodos w).1 = inl (Object_values rt)
  ∧ idb_todos (run getAllTodos w).2 = rt.
Proof.
  intros [Hr Hc] (Hkm & Hkt & Hkrm & Hkrt) Hm Hme Ht Hte.
  rewrite Hm in Hkrm. rewrite Ht in Hkrt. cbn in Hkrm, Hkrt.
  split; [| split; [| split]].
  - rewrite getAllMemories_items by (done || (rewrite Hm; by apply has_items_true)).
    cbn [fst]. rewrite Hm. cbn [default].
    by rewrite (js_Map_keyed (c:=Memories)).
  - intros fb loc _ Hloc Hin returned. subst returned.
    by rewrite (enhance_inline _ _ _ Hloc Hin).
  - rewrite getAllTodos_items by (done || (rewrite Ht; by apply has_items_true)).
    cbn [fst]. by rewrite Ht.
  - rewrite getAllTodos_items by (done || (rewrite Ht; by apply has_items_true)).
    cbn [snd]. rewrite Ht. cbn [default]. destruct w; cbn.
    by apply todos_replaced.
Qed.

Lemma online_reachable : reachable Samples.online.
Proof. by repeat split. Qed.

Lemma online_well_keyed : well_keyed Samples.online.
Proof. repeat split; keyed_by_computation. Qed.

Lemma C1_witness :
  (run getAllMemories Samples.online).1
    = inl (enhance (idb_memories Samples.online) <$> Object_values Samples.remote_memories)
  ∧ (∀ fb loc : Memory,
       fb ∈ Object_values Samples.remote_memories →
       idb_memories Samples.online !! mem_id fb = Some loc →
       is_inline (mem_url loc) = true →
       let returned := enhance (idb_memories Samples.online) fb in
       mem_url returned = mem_url loc ∧
       mem_caption returned = mem_caption fb ∧
       mem_date returned = mem_date fb ∧
       mem_id returned = mem_id fb ∧
       mem_type returned = mem_type fb)
  ∧ (run getAllTodos Samples.online).1 = inl (Object_values Samples.remote_todos)
  ∧ idb_todos (run getAllTodos Samples.online).2 = Samples.remote_todos.
Proof.
  apply (C1_read_all_merges_memories_replaces_todos Samples.online
           Samples.remote_memories Samples.remote_todos).
  - exact online_reachable.
  - exact online_well_keyed.
  - reflexivity.
  - intros H; vm_compute in H; discriminate.
  - reflexivity.
  - intros H; vm_compute in H; discriminate.
Defined.

(** C2. With the remote store reachable and the remote collection empty,
    Read-all returns the empty list and leaves the Local Store collection
    empty, whatever it held; for the memories and for the todos. *)
Theorem C2_read_all_empty_remote_clears_local (c : Coll) (w : World) :
  reachable w → well_keyed w → remote_empty (remote (PColl c) w) →
  (run (Read_all c) w).1 = inl [] ∧ idb c (run (Read_all c) w).2 = ∅.
Proof.
  intros [Hr Hc] (Hkm & Hkt & _ & _) He%has_items_false.
  destruct c; cbn [Read_all idb remote] in *.
  - rewrite getAllMemories_empty by done. split; [done |].
    destruct w; cbn. by apply (dels_values_keyed (c:=Memories)).
  - rewrite getAllTodos_empty by done. split; [done |].
    destruct w; cbn. by apply (dels_values_keyed (c:=Todos)).
Qed.

Lemma C2_witness :
  size (idb Memories Samples.online_remote_empty) = 2 ∧
  (run (Read_all Memories) Samples.online_remote_empty).1 = inl [] ∧
  idb Memories (run (Read_all Memories) Samples.online_remote_empty).2 = ∅.
Proof.
  split; [reflexivity |].
  apply (C2_read_all_empty_remote_clears_local Memories Samples.online_remote_empty).
  - by repeat split.
  - repeat split; keyed_by_computation.
  - by left.
Defined.
(** ** The live subscription on an empty snapshot *)

Lemma memoriesListener_empty (data : option (gmap string Memory)) (w : World) :
  idb_faults w = [] → keyed (c:=Memories) (idb_memories w) → remote_empty data →
  let w' := (run (memoriesListener data) w).2 in
  idb_memories w' = ∅ ∧
  trace w' = (trace w ++ EvIdbGetAll "memories"
               :: delete_events Memories (Object_values (idb_memories w))
               ++ [EvOnMemoriesChange []])%list.
Proof.
  intros Hf Hk He%has_items_false. unfold memoriesListener. rewrite He.
  destruct w; cbn in Hf, Hk; subst. exec.
  rewrite run_bind, run_delete_all by reflexivity. exec. split.
  - by apply (dels_values_keyed (c:=Memories)).
  - by rewrite <- !app_assoc.
Qed.

Lemma todosListener_empty (data : option (gmap string TodoItem)) (w : World) :
  remote_empty data →
  let w' := (run (todosListener data) w).2 in
  idb_todos w' = idb_todos w ∧ trace w' = trace w ++ [EvOnTodosChange []].
Proof.
  intros [-> | ->]; destruct w; unfold todosListener; [by exec |].
  unfold Object_values. rewrite map_to_list_empty. by exec.
Qed.

(** C3 (the code departs from it).  On a null snapshot the listener of the
    todos invokes the change callback with the empty list and leaves the
    two todos of the Local Store where they are. *)
Theorem C3_todos_listener_keeps_local_items :
  let w' := (run (todosListener None) Samples.online).2 in
  trace w' = [EvOnTodosChange []] ∧
  idb_todos w' = Samples.local_todos ∧
  size (idb_todos w') = 2.
Proof. by vm_compute. Qed.

(** ** Save *)

(** C4. Save writes the item into the Local Store first.  If that write
    fails, the failure is what Save reports, and nothing else has been
    attempted.  Otherwise Save resolves with the result of the local write
    (the key of the item), whether the adapter is ready or not and whatever
    the calls of the service do; the item is in the Local Store; every
    other effect of the run is a call of the service, made after the local
    write and before Save resolves; there is none when the adapter is not
    ready; and when the adapter is ready and no call fails, an item that
    needs no upload is in the remote collection when Save resolves. *)
Theorem C4_save_local_first_remote_silent (c : Coll) (x : Item c) (w : World) :
  match idb_faults w with
  | true :: fs =>
      run (Save c x) w =
      (inr IdbError, set_idb_faults fs (log (EvIdbPut (store_name c) (item_id x)) w))
  | _ =>
      ∃ tr : list Event,
        trace (run (Save c x) w).2
          = (trace w ++ EvIdbPut (store_name c) (item_id x) :: tr)%list
        ∧ forallb is_remote tr = true
        ∧ (run (Save c x) w).1 = inl (item_id x)
        ∧ idb c (run (Save c x) w).2 = <[item_id x := x]> (idb c w)
        ∧ (ready w = false →
             tr = [] ∧ remote (PColl c) (run (Save c x) w).2 = remote (PColl c) w)
        ∧ (ready w = true → sdk_faults w = [] → needs_upload x = false →
             remote (PColl c) (run (Save c x) w).2
               = Some (<[item_id x := x]> (default ∅ (remote (PColl c) w))))
  end.
Proof.
  destruct c, w as [init db st im it ist rm rt rs bk url ls idbf sdkf cf tr0];
    cbn [Save idb_faults]; destruct idbf as [| [] idbf];
    try (by unfold saveMemory, saveTodo; exec).
  all: destruct init, db.
  all: first [name_run (saveMemory x) | name_run (saveTodo x)].
  all: unfold saveMemory, saveTodo; crunch.
  all: intros <-; fast_exec; recall_conditions.
  all: eexists; (split; [trace_eq |]).
  all: repeat split; try done.
  all: intros _ _ Hn; cbn in Hn; congruence.
Qed.

Lemma C4_witness :
  ∃ tr : list Event,
    trace (run (Save Todos Samples.todo_2) Samples.online).2
      = trace Samples.online ++ EvIdbPut "todos" "2" :: tr
    ∧ forallb is_remote tr = true
    ∧ (run (Save Todos Samples.todo_2) Samples.online).1 = inl "2"
    ∧ idb Todos (run (Save Todos Samples.todo_2) Samples.online).2
        = <["2" := Samples.todo_2]> (idb Todos Samples.online)
    ∧ (ready Samples.online = false →
         tr = [] ∧
         remote (PColl Todos) (run (Save Todos Samples.todo_2) Samples.online).2
           = remote (PColl Todos) Samples.online)
    ∧ (ready Samples.online = true → sdk_faults Samples.online = [] →
       needs_upload (c:=Todos) Samples.todo_2 = false →
         remote (PColl Todos) (run (Save Todos Samples.todo_2) Samples.online).2
           = Some (<["2" := Samples.todo_2]>
                     (default ∅ (remote (PColl Todos) Samples.online)))).
Proof. exact (C4_save_local_first_remote_silent Todos Samples.todo_2 Samples.online). Defined.



(** ** The remote store adapter never fails *)

(** C6. Each operation of the adapter returns, for every path, value and
    world.  When the adapter is not ready nothing is attempted: [save] and
    [delete] do nothing, [get] returns none, [listen] returns the
    unsubscribe that does nothing.  When the call of the service throws,
    the same results come back, and the world differs only by the trace of
    the attempt and the consumed fault.  Otherwise the call takes effect. *)
Theorem C6_adapter_never_propagates (p : Path) (data : PathVal p) (w : World) :
  let shared := getSharedPath (path_name p) in
  run (call_unsub unsub_noop) w = (inl tt, w) ∧
  match ready w, sdk_faults w with
  | false, _ =>
      run (firebaseSync.save p data) w = (inl tt, w) ∧
      run (firebaseSync.get p) w = (inl None, w) ∧
      run (firebaseSync.delete p) w = (inl tt, w) ∧
      run (firebaseSync.listen p) w = (inl unsub_noop, w)
  | true, true :: fs =>
      run (firebaseSync.save p data) w
        = (inl tt, set_sdk_faults fs (log (EvSdkSet shared) w)) ∧
      run (firebaseSync.get p) w
        = (inl None, set_sdk_faults fs (log (EvSdkGet shared) w)) ∧
      run (firebaseSync.delete p) w
        = (inl tt, set_sdk_faults fs (log (EvSdkRemove shared) w)) ∧
      run (firebaseSync.listen p) w
        = (inl unsub_noop, set_sdk_faults fs (log (EvSdkOnValue shared) w))
  | true, fs =>
      run (firebaseSync.save p data) w
        = (inl tt, set_remote p (Some data)
                     (set_sdk_faults (tail fs) (log (EvSdkSet shared) w))) ∧
      run (firebaseSync.get p) w
        = (inl (remote p w), set_sdk_faults (tail fs) (log (EvSdkGet shared) w)) ∧
      run (firebaseSync.delete p) w
        = (inl tt, set_remote p None
                     (set_sdk_faults (tail fs) (log (EvSdkRemove shared) w))) ∧
      run (firebaseSync.listen p) w
        = (inl (unsub_off p),
           set_listening (shared :: listening w)
             (set_sdk_faults (tail fs) (log (EvSdkOnValue shared) w)))
  end.
Proof.
  destruct w as [[] [] st im it ist rm rt rs bk url ls idbf sdkf cf tr0];
    (split; [done |]); cbn [ready sdk_faults isInitialized database andb];
    try (by repeat split).
  destruct sdkf as [| [] sdkf]; repeat split; destruct p as [[] | key]; by exec.
Qed.
(** ** Delete, then Read-all *)






(** ** Save twice *)

(** C8. Without pending faults, a second Save of the same item leaves the
    Local Store, the remote database and the object storage as the first
    Save left them; the item is stored once, under its id, as given. *)
Theorem C8_save_twice_is_save_once (c : Coll) (x : Item c) (w : World) :
  calm w →
  let once := (run (Save c x) w).2 in
  let twice := (run (Save c x) once).2 in
  (run (Save c x) once).1 = inl (item_id x) ∧
  stores twice = stores once ∧
  idb c once !! item_id x = Some x ∧
  Object_values (idb c twice) = Object_values (idb c once).
Proof.
  intros [Hi Hs] once twice. subst once twice.
  destruct (run (Save c x) w) as [r1 w1] eqn:E1. cbn [fst snd].
  destruct (run (Save c x) w1) as [r2 w2] eqn:E2. cbn [fst snd].
  revert E1.
  destruct c, w as [[] [] [] im it ist rm rt rs bk url ls idbf sdkf cf tr0];
    cbn in Hi, Hs; subst idbf sdkf; cbn [Save] in *.
  all: unfold saveMemory, saveTodo; crunch_recalling; intros [= <- <-].
  all: revert E2; unfold saveMemory, saveTodo; crunch_recalling; intros [= <- <-].
  all: unfold stores; fast_exec; cbn [default];
    rewrite ?insert_insert_eq, ?lookup_insert_eq.
  all: done.
Qed.

Lemma C8_witness :
  let once := (run (Save Memories Samples.photo_b_local) Samples.online).2 in
  let twice := (run (Save Memories Samples.photo_b_local) once).2 in
  (run (Save Memories Samples.photo_b_local) once).1 = inl "b" ∧
  stores twice = stores once ∧
  idb Memories once !! "b" = Some Samples.photo_b_local ∧
  Object_values (idb Memories twice) = Object_values (idb Memories once).
Proof.
  apply (C8_save_twice_is_save_once Memories Samples.photo_b_local Samples.online).
  by split.
Defined.
(** ** Import of a backup *)

(** A document without a truthy [memories] or [todos] field is refused
    with the failure message, before anything else happens. *)
Lemma import_rejects_incomplete (backupData : BackupDoc)
    (sched_clear sched_write : list nat) (w : World) :
  field_truthy (bk_memories backupData) = false
  ∨ field_truthy (bk_todos backupData) = false →
  handleImportData (Some (Json backupData)) sched_clear sched_write w
  = log (EvAlert restore_failed) w.
Proof.
  intros H. unfold handleImportData, import_try.
  destruct H as [-> | ->]; cbn [negb orb]; rewrite ?orb_true_r; by destruct w.
Qed.

Lemma missing_field_not_truthy {A} (f : Field A) :
  has_field f = false → field_truthy f = false.
Proof. by destruct f. Qed.

(** Text that is not JSON is refused likewise. *)
Lemma import_rejects_malformed (sched_clear sched_write : list nat) (w : World) :
  handleImportData (Some NotJson) sched_clear sched_write w
  = log (EvAlert restore_failed) w.
Proof. by destruct w. Qed.

(** A document the user does not confirm changes nothing. *)
Lemma import_declined (backupData : BackupDoc)
    (sched_clear sched_write : list nat) (w : World) :
  field_truthy (bk_memories backupData) = true →
  field_truthy (bk_todos backupData) = true →
  confirm_answer w = false →
  handleImportData (Some (Json backupData)) sched_clear sched_write w
  = log EvConfirm w.
Proof.
  intros Hm Ht Hc. unfold handleImportData, import_try. rewrite Hm, Ht.
  cbn [negb orb]. unfold act_bind. rewrite run_await. cbn [exec_op].
  rewrite Hc. by destruct w.
Qed.

(** When the calls of each [Promise.all] run one after the other, the
    sample import replaces the stores by the backup. *)
Example import_one_after_the_other :
  let w' := handleImportData (Some (Json Samples.backup)) [] [] Samples.online in
  idb_memories w' = {[ "c" := Samples.photo_c; "d" := Samples.photo_d ]} ∧
  idb_todos w' = {[ "3" := Samples.todo_3 ]} ∧
  rt_memories w' = Some {[ "c" := Samples.photo_c; "d" := Samples.photo_d ]} ∧
  rt_todos w' = Some {[ "3" := Samples.todo_3 ]}.
Proof. by vm_compute. Qed.

(** C9 (the code departs from it).  The import of the sample backup (two
    memories, one todo), accepted and confirmed, with the remote store
    reachable and the concurrent deletes and saves taking turns: the
    import reports success, the Local Store holds the backup, and the
    remote collection of memories still holds item a, which is not in the
    backup, and lacks item c, which is. *)
Theorem C9_import_races_on_remote_collection :
  let w' := handleImportData (Some (Json Samples.backup))
              Samples.taking_turns Samples.taking_turns Samples.online in
  last (trace w') = Some (EvAlert restore_succeeded) ∧
  idb_memories w' = {[ "c" := Samples.photo_c; "d" := Samples.photo_d ]} ∧
  rt_memories w' = Some {[ "a" := Samples.photo_a; "d" := Samples.photo_d ]} ∧
  rt_memories w' ≫= (.!! "a") = Some Samples.photo_a ∧
  rt_memories w' ≫= (.!! "c") = None.
Proof. by vm_compute. Qed.

(** ** The timer *)

(** C10. The decomposition of the distance between now and the start
    date: hours, minutes and seconds are within their ranges, days are not
    negative, the four together are the distance cut to whole seconds, and
    swapping now and the start date changes the heading only. *)
Theorem C10_timer_decomposition (now startDate : Z) :
  let shown := (calculateTime now startDate).2 in
  let absDiff := Z.abs (now - startDate) in
  (0 ≤ days shown ∧ 0 ≤ hours shown < 24 ∧
   0 ≤ minutes shown < 60 ∧ 0 ≤ seconds shown < 60)%Z
  ∧ (days shown * 86400000 + hours shown * 3600000
     + minutes shown * 60000 + seconds shown * 1000 ≤ absDiff
     < days shown * 86400000 + hours shown * 3600000
       + minutes shown * 60000 + (seconds shown + 1) * 1000)%Z
  ∧ (calculateTime startDate now).2 = shown
  ∧ (calculateTime now startDate).1 = bool_decide (now < startDate)%Z
  ∧ (calculateTime startDate now).1 = bool_decide (startDate < now)%Z.
Proof.
  intros shown absDiff. subst shown absDiff. unfold calculateTime.
  cbn [fst snd days hours minutes seconds].
  replace (Z.abs (startDate - now)) with (Z.abs (now - startDate)) by lia.
  change (1000 * 60 * 60 * 24)%Z with 86400000%Z.
  change (1000 * 60 * 60)%Z with 3600000%Z.
  change (1000 * 60)%Z with 60000%Z.
  split; [| split; [| split; [done | split; case_bool_decide; lia]]].
  - generalize (Z.abs_nonneg (now - startDate)).
    generalize (Z.abs (now - startDate)). intros d Hd.
    repeat split; Z.to_euclidean_division_equations; lia.
  - generalize (Z.abs_nonneg (now - startDate)).
    generalize (Z.abs (now - startDate)). intros d Hd.
    split; Z.to_euclidean_division_equations; lia.
Qed.
